(** * Offline asset cache of the comic library PWA (service worker)

    Shallow embedding of the service worker
<<
    const cacheName = 'pwa-cache-v1';
    const assets = ['/', '/static/app.js', '/static/manifest.json'];
    self.addEventListener('install', event => {
        event.waitUntil(caches.open(cacheName).then(cache => cache.addAll(assets)));
    });
    self.addEventListener('fetch', event => {
        event.respondWith(
            caches.match(event.request).then(res => res || fetch(event.request)));
    });
>>
    together with the parts of the browser's Cache API it calls
    ([caches.open], [Cache.addAll], [caches.match], [fetch]), and of the
    Java exercise that reads three numbers and prints the largest. *)

From Stdlib Require Import List String Ascii ZArith Bool Lia.
Import ListNotations.
Open Scope string_scope.
Open Scope Z_scope.

Module ServiceWorker.

(** ** Data model *)

(** A request is identified by its URL path. *)
Definition Request := string.

Record Response := mkResponse { status : Z; body : string }.

(** A [Cache] is an ordered list of request/response entries. *)
Definition Cache := list (Request * Response).

(** [CacheStorage] ([self.caches]): the name-to-cache map, in creation
    order (the order [caches.match] searches). *)
Definition CacheStorage := list (string * Cache).

(** The network: [None] is a network error (the [fetch] promise rejects);
    any HTTP status, 404 included, is a response. *)
Definition Network := Request -> option Response.

Inductive Error := NetworkError | BadStatus.

(** Settled promise: fulfilled with a value or rejected with an error. *)
Inductive result (A : Type) := Ok (a : A) | Err (e : Error).
Arguments Ok {A} a.
Arguments Err {A} e.

(** Requests sent to the network, in order. *)
Definition trace := list Request.

Definition cacheName : string := "pwa-cache-v1".

Definition assets : list Request := ["/"; "/static/app.js"; "/static/manifest.json"].

(** ** Cache API *)

(** [Cache.match]: first entry with the request's identity. *)
Fixpoint cache_lookup (c : Cache) (r : Request) : option Response :=
  match c with
  | [] => None
  | (k, v) :: c' => if String.eqb k r then Some v else cache_lookup c' r
  end.

(** [caches.match]: each cache in creation order, first hit wins. *)
Fixpoint caches_match (s : CacheStorage) (r : Request) : option Response :=
  match s with
  | [] => None
  | (_, c) :: s' =>
      match cache_lookup c r with
      | Some v => Some v
      | None => caches_match s' r
      end
  end.

Fixpoint storage_get (s : CacheStorage) (name : string) : option Cache :=
  match s with
  | [] => None
  | (n, c) :: s' => if String.eqb n name then Some c else storage_get s' name
  end.

(** Replace the contents of the cache [name] (which exists). *)
Fixpoint storage_set (s : CacheStorage) (name : string) (c : Cache) : CacheStorage :=
  match s with
  | [] => []
  | (n, c0) :: s' =>
      if String.eqb n name then (n, c) :: s' else (n, c0) :: storage_set s' name c
  end.

(** [caches.open(name)]: the existing cache, or a new empty one appended. *)
Definition caches_open (s : CacheStorage) (name : string) : CacheStorage * Cache :=
  match storage_get s name with
  | Some c => (s, c)
  | None => ((s ++ [(name, [])])%list, [])
  end.

(** A put in a batch cache operation: entries matching the request are
    removed, then the new entry is appended. *)
Definition cache_put (c : Cache) (r : Request) (v : Response) : Cache :=
  (filter (fun e => negb (String.eqb (fst e) r)) c ++ [(r, v)])%list.

Definition ok_status (z : Z) : bool := (200 <=? z) && (z <=? 299).

(** [fetch(request)]: rejects on a network error only. *)
Definition fetch (net : Network) (r : Request) : result Response :=
  match net r with
  | Some v => Ok v
  | None => Err NetworkError
  end.

(** The responses [Cache.addAll] collects: each fetch must succeed with an
    ok status other than 206, otherwise the whole operation rejects. *)
Fixpoint fetch_responses (net : Network) (rs : list Request)
  : result (list (Request * Response)) :=
  match rs with
  | [] => Ok []
  | r :: rs' =>
      match fetch net r with
      | Err e => Err e
      | Ok v =>
          if ok_status (status v) && negb (status v =? 206) then
            match fetch_responses net rs' with
            | Ok l => Ok ((r, v) :: l)
            | Err e => Err e
            end
          else Err BadStatus
      end
  end.

Definition put_all (c : Cache) (l : list (Request * Response)) : Cache :=
  fold_left (fun c e => cache_put c (fst e) (snd e)) l c.

(** [cache.addAll(rs)]: every request is fetched; only when all succeed
    are the responses stored, as one batch. *)
Definition cache_addAll (net : Network) (c : Cache) (rs : list Request)
  : trace * result Cache :=
  (rs, match fetch_responses net rs with
       | Ok l => Ok (put_all c l)
       | Err e => Err e
       end).

(** ** The event handlers *)

(** The promise handed to [event.waitUntil] in the install handler:
    [caches.open(cacheName).then(cache => cache.addAll(assets))]. *)
Definition install_handler (net : Network) (s : CacheStorage)
  : CacheStorage * trace * result unit :=
  let '(s1, c) := caches_open s cacheName in
  let '(tr, r) := cache_addAll net c assets in
  match r with
  | Ok c' => (storage_set s1 cacheName c', tr, Ok tt)
  | Err e => (s1, tr, Err e)
  end.

(** The promise handed to [event.respondWith] in the fetch handler:
    [caches.match(req).then(res => res || fetch(req))]. *)
Definition handle_fetch (net : Network) (s : CacheStorage) (req : Request)
  : CacheStorage * trace * result Response :=
  match caches_match s req with
  | Some res => (s, [], Ok res)
  | None => (s, [req], fetch net req)
  end.

(** Worker lifecycle as driven by the runtime: the worker is installed
    when the [waitUntil] promise fulfils and becomes redundant when it
    rejects; only an installed worker activates. *)
Inductive WorkerState := Installing | Installed | Activated | Redundant.

Definition install_event (net : Network) (s : CacheStorage)
  : WorkerState * CacheStorage * trace :=
  let '(s', tr, r) := install_handler net s in
  match r with
  | Ok _ => (Installed, s', tr)
  | Err _ => (Redundant, s', tr)
  end.

Definition activate (w : WorkerState) : WorkerState :=
  match w with
  | Installed => Activated
  | other => other
  end.

(** Events delivered to the worker, each with the network of its time. *)
Inductive Event :=
  | InstallEv (net : Network)
  | FetchEv (net : Network) (req : Request).

Definition step (s : CacheStorage) (e : Event) : CacheStorage :=
  match e with
  | InstallEv net => let '(s', _, _) := install_handler net s in s'
  | FetchEv net req => let '(s', _, _) := handle_fetch net s req in s'
  end.

Definition run (s : CacheStorage) (evs : list Event) : CacheStorage :=
  fold_left step evs s.

End ServiceWorker.

(** * The Java exercise ([Main.main]) *)

Module MaxOfThree.

(** [String.split(",")]: the pieces between commas; when the input has no
    comma the result is the input itself, otherwise trailing empty pieces
    are dropped. *)
Fixpoint split_pieces (s : string) (cur : string) : list string :=
  match s with
  | EmptyString => [cur]
  | String c s' =>
      if Ascii.eqb c "," then cur :: split_pieces s' ""
      else split_pieces s' (cur ++ String c "")
  end.

Fixpoint has_comma (s : string) : bool :=
  match s with
  | EmptyString => false
  | String c s' => Ascii.eqb c "," || has_comma s'
  end.

Fixpoint drop_trailing_empty (l : list string) : list string :=
  match l with
  | [] => []
  | x :: l' =>
      match drop_trailing_empty l' with
      | [] => if String.eqb x "" then [] else [x]
      | l'' => x :: l''
      end
  end.

Definition split_comma (s : string) : list string :=
  if has_comma s then drop_trailing_empty (split_pieces s "") else [s].

Definition digit_val (c : ascii) : option Z :=
  let n := nat_of_ascii c in
  if (48 <=? n)%nat && (n <=? 57)%nat then Some (Z.of_nat (n - 48)) else None.

Fixpoint parse_digits (s : string) (acc : Z) : option Z :=
  match s with
  | EmptyString => Some acc
  | String c s' =>
      match digit_val c with
      | Some d => parse_digits s' (acc * 10 + d)
      | None => None
      end
  end.

(** [Integer.parseInt]: an optional sign then at least one decimal digit,
    the value within the 32-bit [int] range; [None] is a
    [NumberFormatException]. *)
Definition parseInt (s : string) : option Z :=
  let '(neg, digits) :=
    match s with
    | String c s' =>
        if Ascii.eqb c "-" then (true, s')
        else if Ascii.eqb c "+" then (false, s') else (false, s)
    | EmptyString => (false, s)
    end in
  match digits with
  | EmptyString => None
  | _ =>
      match parse_digits digits 0 with
      | None => None
      | Some v =>
          let z := if neg then - v else v in
          if (- 2 ^ 31 <=? z) && (z <=? 2 ^ 31 - 1) then Some z else None
      end
  end.

Fixpoint parse_all (parts : list string) : option (list Z) :=
  match parts with
  | [] => Some []
  | p :: ps =>
      match parseInt p, parse_all ps with
      | Some n, Some ns => Some (n :: ns)
      | _, _ => None
      end
  end.

(** [int compare = 0; for (int num : numbers) if (num > compare) compare = num;] *)
Definition largest (numbers : list Z) : Z :=
  fold_left (fun compare num => if num >? compare then num else compare) numbers 0.

(** What [main] prints after the prompt for the input line [line]: the
    arguments of the [String.format] call ([numbers[0]], [numbers[1]],
    [numbers[2]], [compare]); [None] when it throws (bad number or fewer
    than three numbers). *)
Definition main_out (line : string) : option (Z * Z * Z * Z) :=
  match parse_all (split_comma line) with
  | Some ((n0 :: n1 :: n2 :: _) as numbers) => Some (n0, n1, n2, largest numbers)
  | _ => None
  end.

End MaxOfThree.

(** * The page script: the file list *)

Module FileListPage.
Import ServiceWorker.

Section Page.

(** [res.json()] followed by [files.forEach]: the file names of a JSON
    array body; [None] when the body is not a JSON array (the promise
    chain rejects and nothing is rendered). *)
Variable parse_files : string -> option (list string).

(** The [DOMContentLoaded] handler on a page controlled by the worker:
    [fetch('/files')] goes through the worker's fetch handler; each file
    name becomes one [li] appended to [#file_list] (modelled as the list
    of the items' texts). No status check is made on the response, and a
    rejection is left unhandled. *)
Definition load_file_list (net : Network) (s : CacheStorage) (list : list string)
  : Datatypes.list string :=
  let '(_, _, r) := handle_fetch net s "/files" in
  match r with
  | Ok res =>
      match parse_files (body res) with
      | Some files => fold_left (fun l file => (l ++ [file])%list) files list
      | None => list
      end
  | Err _ => list
  end.

End Page.

End FileListPage.

(** * Properties of the service worker *)

Module ServiceWorkerFacts.
Import ServiceWorker.
Local Open Scope list_scope.

(** ** Cache API lemmas *)

Lemma cache_lookup_app (l1 l2 : Cache) (r : Request) :
  cache_lookup (l1 ++ l2) r =
  match cache_lookup l1 r with Some v => Some v | None => cache_lookup l2 r end.
Proof.
  induction l1 as [|[k v] l1 IH]; simpl; [reflexivity|].
  destruct (String.eqb k r); [reflexivity | exact IH].
Qed.

Lemma cache_lookup_filter_same (c : Cache) (r : Request) :
  cache_lookup (filter (fun e => negb (String.eqb (fst e) r)) c) r = None.
Proof.
  induction c as [|[k v] c IH]; simpl; [reflexivity|].
  destruct (String.eqb_spec k r) as [->|Hne]; simpl; [exact IH|].
  apply String.eqb_neq in Hne. rewrite Hne. exact IH.
Qed.

Lemma cache_lookup_filter_other (c : Cache) (r r' : Request) :
  r' <> r ->
  cache_lookup (filter (fun e => negb (String.eqb (fst e) r)) c) r' = cache_lookup c r'.
Proof.
  intros Hne. induction c as [|[k v] c IH]; simpl; [reflexivity|].
  destruct (String.eqb_spec k r) as [->|Hkr]; simpl.
  - apply not_eq_sym, String.eqb_neq in Hne. rewrite Hne. exact IH.
  - destruct (String.eqb k r'); [reflexivity | exact IH].
Qed.

Lemma cache_lookup_put_same (c : Cache) (r : Request) (v : Response) :
  cache_lookup (cache_put c r v) r = Some v.
Proof.
  unfold cache_put. rewrite cache_lookup_app, cache_lookup_filter_same.
  simpl. rewrite String.eqb_refl. reflexivity.
Qed.

Lemma cache_lookup_put_other (c : Cache) (r r' : Request) (v : Response) :
  r' <> r -> cache_lookup (cache_put c r v) r' = cache_lookup c r'.
Proof.
  intros Hne. unfold cache_put. rewrite cache_lookup_app, cache_lookup_filter_other by exact Hne.
  destruct (cache_lookup c r'); [reflexivity|]. simpl.
  apply not_eq_sym, String.eqb_neq in Hne. rewrite Hne. reflexivity.
Qed.

Lemma put_all_other (l : list (Request * Response)) (c : Cache) (a : Request) :
  ~ In a (map fst l) -> cache_lookup (put_all c l) a = cache_lookup c a.
Proof.
  unfold put_all. revert c.
  induction l as [|[r v] l IH]; intros c Hnin; simpl; [reflexivity|].
  simpl in Hnin. rewrite IH by tauto.
  apply cache_lookup_put_other. intros ->. tauto.
Qed.

Lemma put_all_lookup (net : Network) (l : list (Request * Response)) (c : Cache) (a : Request) :
  (forall r v, In (r, v) l -> net r = Some v) ->
  In a (map fst l) -> cache_lookup (put_all c l) a = net a.
Proof.
  unfold put_all. revert c.
  induction l as [|[r v] l IH]; intros c Hnet Hin; simpl in *; [contradiction|].
  destruct (in_dec String.string_dec a (map fst l)) as [Hl|Hl].
  - apply IH; auto.
  - destruct Hin as [->|Hin]; [|contradiction].
    change (fold_left (fun c e => cache_put c (fst e) (snd e)) l (cache_put c a v))
      with (put_all (cache_put c a v) l).
    rewrite put_all_other by exact Hl.
    rewrite cache_lookup_put_same. symmetry. apply Hnet. auto.
Qed.

Lemma put_all_keys (l : list (Request * Response)) (c : Cache) (k : Request) :
  In k (map fst (put_all c l)) -> In k (map fst c) \/ In k (map fst l).
Proof.
  unfold put_all. revert c.
  induction l as [|[r v] l IH]; intros c Hin; simpl in *; [auto|].
  destruct (IH _ Hin) as [Hc|Hl]; [|auto].
  unfold cache_put in Hc. rewrite map_app, in_app_iff in Hc. simpl in Hc.
  destruct Hc as [Hc|[<-|[]]]; [|auto].
  left. rewrite in_map_iff in Hc |- *. destruct Hc as [e [He Hf]].
  apply filter_In in Hf. exists e. tauto.
Qed.

Lemma fetch_responses_ok (net : Network) (rs : list Request) (l : list (Request * Response)) :
  fetch_responses net rs = Ok l ->
  map fst l = rs /\ (forall r v, In (r, v) l -> net r = Some v).
Proof.
  revert l. induction rs as [|r rs IH]; intros l H; simpl in H.
  - inversion H; subst. simpl. split; [reflexivity | tauto].
  - unfold fetch in H. destruct (net r) as [v|] eqn:Hr; [|discriminate].
    destruct (ok_status (status v) && negb (status v =? 206)); [|discriminate].
    destruct (fetch_responses net rs) as [l'|] eqn:Hrs; [|discriminate].
    inversion H; subst. destruct (IH l' eq_refl) as [Hm Hn].
    simpl. rewrite Hm. split; [reflexivity|].
    intros r' v' [Heq|Hin]; [inversion Heq; subst; exact Hr | auto].
Qed.

(** ** Storage lemmas *)

Lemma storage_get_set_same (s : CacheStorage) (n : string) (c c0 : Cache) :
  storage_get s n = Some c0 -> storage_get (storage_set s n c) n = Some c.
Proof.
  induction s as [|[m d] s IH]; simpl; [discriminate|].
  destruct (String.eqb_spec m n) as [->|Hne]; simpl.
  - rewrite String.eqb_refl. reflexivity.
  - apply String.eqb_neq in Hne. rewrite Hne. exact IH.
Qed.

Lemma caches_open_get (s : CacheStorage) (n : string) :
  storage_get (fst (caches_open s n)) n = Some (snd (caches_open s n)).
Proof.
  unfold caches_open. destruct (storage_get s n) as [c|] eqn:H; simpl; [exact H|].
  induction s as [|[m d] s IH]; simpl in *.
  - rewrite String.eqb_refl. reflexivity.
  - destruct (String.eqb m n); [discriminate | exact (IH H)].
Qed.

(** What the install handler leaves in the Named Cache Store: the opened
    cache, updated by [addAll] when that succeeds. *)
Lemma install_handler_get (net : Network) (s s' : CacheStorage) (tr : trace) (r : result unit) :
  install_handler net s = (s', tr, r) ->
  tr = assets /\
  match fetch_responses net assets with
  | Ok l => r = Ok tt /\ storage_get s' cacheName = Some (put_all (snd (caches_open s cacheName)) l)
  | Err e => r = Err e /\ storage_get s' cacheName = Some (snd (caches_open s cacheName))
  end.
Proof.
  unfold install_handler, cache_addAll.
  pose proof (caches_open_get s cacheName) as Hg.
  destruct (caches_open s cacheName) as [s1 c] eqn:Ho. cbn [fst snd] in Hg |- *.
  destruct (fetch_responses net assets) as [l|e]; intros H; inversion H; subst.
  - split; [reflexivity|]. split; [reflexivity|]. eapply storage_get_set_same; exact Hg.
  - split; [reflexivity|]. split; [reflexivity | exact Hg].
Qed.

Lemma Response_eq_dec (x y : Response) : {x = y} + {x <> y}.
Proof. decide equality; [apply String.string_dec | apply Z.eq_dec]. Qed.

Lemma store_eq_dec (x y : string * Cache) : {x = y} + {x <> y}.
Proof.
  decide equality; [|apply String.string_dec].
  apply list_eq_dec. intros e1 e2. decide equality; [apply Response_eq_dec | apply String.string_dec].
Qed.

Lemma storage_get_in (s : CacheStorage) (n : string) (c : Cache) :
  storage_get s n = Some c -> In (n, c) s.
Proof.
  induction s as [|[m d] s IH]; simpl; [discriminate|].
  destruct (String.eqb_spec m n) as [->|_]; intros H.
  - inversion H; subst. left. reflexivity.
  - right. exact (IH H).
Qed.

(** [caches.match] finds a request held by some cache of the storage: the
    first hit comes from a cache of the storage, and it is the response of
    a given cache when no other cache holds the request. *)
Lemma caches_match_in (s : CacheStorage) (n : string) (c : Cache) (req : Request) (v : Response) :
  In (n, c) s -> cache_lookup c req = Some v ->
  exists w, caches_match s req = Some w /\
    (exists n' c', In (n', c') s /\ cache_lookup c' req = Some w) /\
    ((forall n' c', In (n', c') s -> (n', c') <> (n, c) -> cache_lookup c' req = None) -> w = v).
Proof.
  intros Hin Hv. induction s as [|[m d] s IH]; [contradiction|]. simpl.
  destruct (cache_lookup d req) as [w|] eqn:Hd.
  - exists w. split; [reflexivity|]. split.
    + exists m, d. split; [left; reflexivity | exact Hd].
    + intros Honly. destruct (store_eq_dec (m, d) (n, c)) as [He|He].
      * inversion He; subst. rewrite Hv in Hd. inversion Hd. reflexivity.
      * rewrite (Honly m d (or_introl eq_refl) He) in Hd. discriminate.
  - destruct Hin as [He|Hin].
    + inversion He; subst. rewrite Hv in Hd. discriminate.
    + destruct (IH Hin) as [w [Hw [[n' [c' [Hin' Hc']]] Hu]]].
      exists w. split; [exact Hw|]. split.
      * exists n', c'. split; [right; exact Hin' | exact Hc'].
      * intros Honly. apply Hu. intros n'' c'' Hin'' Hne.
        apply (Honly n'' c''); [right; exact Hin'' | exact Hne].
Qed.

Lemma caches_match_none (s : CacheStorage) (req : Request) :
  (forall n c, In (n, c) s -> cache_lookup c req = None) -> caches_match s req = None.
Proof.
  induction s as [|[m d] s IH]; intros H; simpl; [reflexivity|].
  rewrite (H m d (or_introl eq_refl)). apply IH. intros n c Hin. apply (H n c). right. exact Hin.
Qed.

Lemma handle_fetch_miss (net : Network) (s : CacheStorage) (req : Request) :
  (forall n c, In (n, c) s -> cache_lookup c req = None) ->
  handle_fetch net s req = (s, [req], fetch net req).
Proof.
  intros H. unfold handle_fetch. rewrite (caches_match_none s req H). reflexivity.
Qed.

Lemma fetch_responses_fail (net : Network) (rs : list Request) (a : Request) :
  In a rs ->
  (net a = None \/ exists v, net a = Some v /\ ok_status (status v) = false) ->
  exists e, fetch_responses net rs = Err e.
Proof.
  intros Hin Hbad. induction rs as [|r rs IH]; [contradiction|]. simpl. unfold fetch.
  destruct Hin as [->|Hin].
  - destruct Hbad as [Hn|[v [Hv Hok]]].
    + rewrite Hn. eexists. reflexivity.
    + rewrite Hv, Hok. eexists. reflexivity.
  - destruct (IH Hin) as [e He].
    destruct (net r) as [v|]; [|eexists; reflexivity].
    destruct (ok_status (status v) && negb (status v =? 206)); [|eexists; reflexivity].
    rewrite He. eexists. reflexivity.
Qed.

Lemma step_keys (s : CacheStorage) (e : Event) :
  (forall c, storage_get s cacheName = Some c -> forall k, In k (map fst c) -> In k assets) ->
  (forall c, storage_get (step s e) cacheName = Some c -> forall k, In k (map fst c) -> In k assets).
Proof.
  intros Hinv. destruct e as [net|net req]; simpl.
  - destruct (install_handler net s) as [[s' tr] r] eqn:Hi.
    destruct (install_handler_get _ _ _ _ _ Hi) as [_ Hg].
    assert (Ho : forall k, In k (map fst (snd (caches_open s cacheName))) -> In k assets).
    { unfold caches_open. destruct (storage_get s cacheName) as [c0|] eqn:Hc0; simpl.
      - exact (Hinv c0 eq_refl).
      - intros k []. }
    destruct (fetch_responses net assets) as [l|err] eqn:Hf; destruct Hg as [_ Hg];
      intros c Hc; rewrite Hg in Hc; inversion Hc; subst; intros k Hk.
    + destruct (put_all_keys _ _ _ Hk) as [Hk'|Hk']; [exact (Ho k Hk')|].
      destruct (fetch_responses_ok _ _ _ Hf) as [Hm _]. rewrite Hm in Hk'. exact Hk'.
    + exact (Ho k Hk).
  - unfold handle_fetch. destruct (caches_match s req); exact Hinv.
Qed.

Lemma run_keys (evs : list Event) (s : CacheStorage) :
  (forall c, storage_get s cacheName = Some c -> forall k, In k (map fst c) -> In k assets) ->
  (forall c, storage_get (run s evs) cacheName = Some c -> forall k, In k (map fst c) -> In k assets).
Proof.
  unfold run. revert s. induction evs as [|e evs IH]; intros s Hinv; simpl; [exact Hinv|].
  apply IH. apply step_keys. exact Hinv.
Qed.

(** ** Claims *)

(** C1 (as stated, refuted): a request held by the Named Cache Store after
    a successful install is not always answered with the response stored
    there.  An older store ["pwa-cache-v0"], created before it and holding
    ["/"], is searched first by [caches.match], so Handle Fetch answers
    with that store's response. *)
Lemma fetch_hit_named_store_counterexample :
  let old := mkResponse 200 "old" in
  let net := fun _ : Request => Some (mkResponse 200 "new") in
  let s := [("pwa-cache-v0", [("/", old)])] in
  exists s' c,
    install_handler net s = (s', assets, Ok tt) /\
    storage_get s' cacheName = Some c /\
    cache_lookup c "/" = Some (mkResponse 200 "new") /\
    handle_fetch net s' "/" = (s', [], Ok old) /\
    old <> mkResponse 200 "new".
Proof.
  intros old net s. eexists. eexists.
  split; [reflexivity|]. split; [reflexivity|]. split; [reflexivity|].
  split; [reflexivity|]. unfold old. intros H. inversion H.
Qed.

(** C1 (amended): after a successful install, a request held by the
    Named Cache Store is answered from the stores with zero network
    fetches: with the first match across all stores in creation order,
    which is the Named Cache Store's response whenever no other store
    holds the request. *)
Theorem fetch_hit_after_install (net : Network) (s s' : CacheStorage) (tr : trace)
    (req : Request) (c : Cache) (v : Response) :
  install_handler net s = (s', tr, Ok tt) ->
  storage_get s' cacheName = Some c ->
  cache_lookup c req = Some v ->
  exists w,
    caches_match s' req = Some w /\
    handle_fetch net s' req = (s', [], Ok w) /\
    ((forall n d, In (n, d) s' -> (n, d) <> (cacheName, c) -> cache_lookup d req = None) ->
     w = v).
Proof.
  intros _ Hc Hv.
  destruct (caches_match_in s' cacheName c req v (storage_get_in _ _ _ Hc) Hv)
    as [w [Hw [_ Hu]]].
  exists w. split; [exact Hw|]. split; [|exact Hu].
  unfold handle_fetch. rewrite Hw. reflexivity.
Qed.

Lemma fetch_hit_after_install_witness :
  let net := fun _ : Request => Some (mkResponse 200 "body") in
  exists w, caches_match [(cacheName, put_all [] [("/", mkResponse 200 "body");
      ("/static/app.js", mkResponse 200 "body");
      ("/static/manifest.json", mkResponse 200 "body")])] "/static/app.js" = Some w /\
    w = mkResponse 200 "body".
Proof.
  intros net.
  destruct (fetch_hit_after_install net []
    [(cacheName, put_all [] [("/", mkResponse 200 "body");
      ("/static/app.js", mkResponse 200 "body");
      ("/static/manifest.json", mkResponse 200 "body")])]
    assets "/static/app.js"
    (put_all [] [("/", mkResponse 200 "body");
      ("/static/app.js", mkResponse 200 "body");
      ("/static/manifest.json", mkResponse 200 "body")])
    (mkResponse 200 "body") eq_refl eq_refl eq_refl) as [w [Hw [_ Hu]]].
  exists w. split; [exact Hw|]. apply Hu.
  intros n d [Hnd|[]] Hne. exfalso. apply Hne. inversion Hnd. reflexivity.
Defined.

(** C2: a request held by no cache store is sent to the network exactly
    once, and Handle Fetch settles with that fetch's result unchanged. *)
Theorem fetch_miss_goes_to_network (net : Network) (s : CacheStorage) (req : Request) :
  (forall n c, In (n, c) s -> cache_lookup c req = None) ->
  handle_fetch net s req = (s, [req], fetch net req).
Proof.
  intros H. unfold handle_fetch. rewrite (caches_match_none s req H). reflexivity.
Qed.

Lemma fetch_miss_goes_to_network_witness :
  handle_fetch (fun _ => Some (mkResponse 404 "")) [(cacheName, [("/", mkResponse 200 "")])]
    "/not-in-manifest.png"
  = ([(cacheName, [("/", mkResponse 200 "")])], ["/not-in-manifest.png"],
     Ok (mkResponse 404 "")).
Proof.
  apply (fetch_miss_goes_to_network (fun _ => Some (mkResponse 404 ""))
    [(cacheName, [("/", mkResponse 200 "")])] "/not-in-manifest.png").
  intros n c [H|[]]. inversion H; subst. reflexivity.
Defined.

(** C3: when the fetch of one manifest asset fails (a network error, or
    a response without an ok status), the promise handed to [waitUntil]
    rejects and the worker becomes redundant, never active. *)
Theorem install_fails_on_asset_failure (net : Network) (s : CacheStorage) (a : Request) :
  In a assets ->
  (net a = None \/ exists v, net a = Some v /\ ok_status (status v) = false) ->
  (exists e, snd (install_handler net s) = Err e) /\
  (forall w s' tr, install_event net s = (w, s', tr) -> w = Redundant /\ activate w = Redundant).
Proof.
  intros Hin Hbad.
  destruct (fetch_responses_fail net assets a Hin Hbad) as [e He].
  destruct (install_handler net s) as [[s' tr] r] eqn:Hi.
  destruct (install_handler_get _ _ _ _ _ Hi) as [_ Hg]. rewrite He in Hg.
  destruct Hg as [-> _]. split; [exists e; reflexivity|].
  intros w s'' tr'. unfold install_event. rewrite Hi. intros H. inversion H.
  split; reflexivity.
Qed.

Lemma install_fails_on_asset_failure_witness :
  let net := fun r => if String.eqb r "/static/app.js" then None else Some (mkResponse 200 "") in
  (exists e, snd (install_handler net []) = Err e) /\
  (forall w s' tr, install_event net [] = (w, s', tr) -> w = Redundant /\ activate w = Redundant).
Proof.
  intros net.
  apply (install_fails_on_asset_failure net [] "/static/app.js").
  - right. left. reflexivity.
  - left. reflexivity.
Defined.

(** C4: after a successful install, looking up each manifest asset in the
    Named Cache Store gives the response fetched for it. *)
Theorem install_stores_fetched_assets (net : Network) (s s' : CacheStorage) (tr : trace) :
  install_handler net s = (s', tr, Ok tt) ->
  forall a, In a assets ->
  exists c v, storage_get s' cacheName = Some c /\ net a = Some v /\ cache_lookup c a = Some v.
Proof.
  intros Hi a Ha.
  destruct (install_handler_get _ _ _ _ _ Hi) as [_ Hg].
  destruct (fetch_responses net assets) as [l|e] eqn:Hf; destruct Hg as [Hr Hg];
    [|discriminate].
  destruct (fetch_responses_ok _ _ _ Hf) as [Hm Hn].
  rewrite <- Hm in Ha.
  destruct (net a) as [v|] eqn:Hv.
  - exists (put_all (snd (caches_open s cacheName)) l), v.
    split; [exact Hg|]. split; [reflexivity|].
    rewrite <- Hv. exact (put_all_lookup net l _ a Hn Ha).
  - exfalso. apply in_map_iff in Ha. destruct Ha as [[r v] [Hr' Hin]]. simpl in Hr'; subst r.
    rewrite (Hn a v Hin) in Hv. discriminate.
Qed.

Lemma install_stores_fetched_assets_witness :
  exists c v, storage_get [(cacheName, put_all [] [("/", mkResponse 200 "index");
      ("/static/app.js", mkResponse 200 "index");
      ("/static/manifest.json", mkResponse 200 "index")])] cacheName = Some c /\
    Some (mkResponse 200 "index") = Some v /\ cache_lookup c "/" = Some v.
Proof.
  apply (install_stores_fetched_assets (fun _ => Some (mkResponse 200 "index")) []
    [(cacheName, put_all [] [("/", mkResponse 200 "index");
      ("/static/app.js", mkResponse 200 "index");
      ("/static/manifest.json", mkResponse 200 "index")])] assets eq_refl "/").
  left. reflexivity.
Defined.

(** C5: a request held by no store, whose network fetch fails, settles as
    a failure: no response is made up in its place. *)
Theorem fetch_miss_network_error (net : Network) (s : CacheStorage) (req : Request) :
  (forall n c, In (n, c) s -> cache_lookup c req = None) ->
  net req = None ->
  handle_fetch net s req = (s, [req], Err NetworkError).
Proof.
  intros Hmiss Hnet. rewrite (handle_fetch_miss net s req Hmiss).
  unfold fetch. rewrite Hnet. reflexivity.
Qed.

Lemma fetch_miss_network_error_witness :
  handle_fetch (fun _ => None) [] "/not-in-manifest.png"
  = ([], ["/not-in-manifest.png"], Err NetworkError).
Proof.
  apply (fetch_miss_network_error (fun _ => None) [] "/not-in-manifest.png").
  - intros n c [].
  - reflexivity.
Defined.

(** C6: on a fresh storage, installing twice leaves the same stores as
    installing once, the network answering as before. *)
Theorem install_twice_fresh (net : Network) :
  fst (fst (install_handler net (fst (fst (install_handler net []))))) =
  fst (fst (install_handler net [])).
Proof.
  unfold install_handler, cache_addAll.
  destruct (fetch_responses net assets) as [l|e] eqn:Hf.
  - destruct (fetch_responses_ok _ _ _ Hf) as [Hm _].
    destruct l as [|[r1 v1] [|[r2 v2] [|[r3 v3] [|]]]]; try discriminate Hm.
    inversion Hm; subst. reflexivity.
  - reflexivity.
Qed.

(** C7: from an empty storage, whatever sequence of install and fetch
    events the worker receives, every key of the Named Cache Store is a
    manifest path; Handle Fetch leaves the storage as it found it. *)
Theorem named_store_keys_in_manifest (evs : list Event) (c : Cache) :
  storage_get (run [] evs) cacheName = Some c ->
  (forall k, In k (map fst c) -> In k assets) /\
  (forall net s req, fst (fst (handle_fetch net s req)) = s).
Proof.
  intros Hc. split.
  - apply (run_keys evs []); [|exact Hc]. intros c0 H0. discriminate H0.
  - intros net s req. unfold handle_fetch. destruct (caches_match s req); reflexivity.
Qed.

Lemma named_store_keys_in_manifest_witness :
  let net := fun _ : Request => Some (mkResponse 200 "") in
  (forall k, In k (map fst (put_all [] [("/", mkResponse 200 "");
      ("/static/app.js", mkResponse 200 "");
      ("/static/manifest.json", mkResponse 200 "")])) -> In k assets) /\
  (forall net s req, fst (fst (handle_fetch net s req)) = s).
Proof.
  intros net.
  apply (named_store_keys_in_manifest
    [InstallEv net; FetchEv net "/not-in-manifest.png"; InstallEv (fun _ => None)]).
  reflexivity.
Defined.

(** C9: the lookup of Handle Fetch is [caches.match] over every store, not
    only ["pwa-cache-v1"]: a request held by any store is answered from
    the stores with no network fetch, with that store's response when no
    other store holds the request. *)
Theorem fetch_serves_any_store (net : Network) (s : CacheStorage) (n : string) (c : Cache)
    (req : Request) (v : Response) :
  In (n, c) s -> cache_lookup c req = Some v ->
  exists w,
    handle_fetch net s req = (s, [], Ok w) /\
    (exists n' c', In (n', c') s /\ cache_lookup c' req = Some w) /\
    ((forall n' c', In (n', c') s -> (n', c') <> (n, c) -> cache_lookup c' req = None) -> w = v).
Proof.
  intros Hin Hv.
  destruct (caches_match_in s n c req v Hin Hv) as [w [Hw [Hfrom Hu]]].
  exists w. split; [|split; [exact Hfrom | exact Hu]].
  unfold handle_fetch. rewrite Hw. reflexivity.
Qed.

Lemma fetch_serves_any_store_witness :
  handle_fetch (fun _ => None) [("other-cache", [("/comic.png", mkResponse 200 "png")])]
    "/comic.png"
  = ([("other-cache", [("/comic.png", mkResponse 200 "png")])], [], Ok (mkResponse 200 "png")).
Proof.
  destruct (fetch_serves_any_store (fun _ => None)
    [("other-cache", [("/comic.png", mkResponse 200 "png")])] "other-cache"
    [("/comic.png", mkResponse 200 "png")] "/comic.png" (mkResponse 200 "png")
    (or_introl eq_refl) eq_refl) as [w [Hw [_ Hu]]].
  rewrite Hw. f_equal. f_equal. apply Hu.
  intros n' c' [H|[]] Hne. exfalso. exact (Hne (eq_sym H)).
Defined.

End ServiceWorkerFacts.

(** * Properties of the Java exercise *)

Module MaxOfThreeFacts.
Import MaxOfThree.

(** The running maximum starts from [0], so the reported value is the
    largest of the numbers and [0]. *)
Lemma largest_three (a b c : Z) :
  largest [a; b; c] = Z.max 0 (Z.max a (Z.max b c)).
Proof.
  unfold largest. simpl.
  destruct (a >? 0) eqn:H1; destruct (b >? _) eqn:H2; destruct (c >? _) eqn:H3;
    rewrite ?Z.gtb_ltb, ?Z.ltb_lt, ?Z.ltb_ge in *; lia.
Qed.

(** C8: for the line ["-1,-2,-3"] the program reports [0] as the largest
    of [-1], [-2] and [-3], which is not their maximum. *)
Theorem main_out_all_negative :
  main_out "-1,-2,-3" = Some (-1, -2, -3, 0) /\ 0 <> Z.max (-1) (Z.max (-2) (-3)).
Proof. split; [reflexivity | discriminate]. Qed.

End MaxOfThreeFacts.

(** * Further properties of the service worker *)

Module ServiceWorkerExtra.
Import ServiceWorker ServiceWorkerFacts.
Local Open Scope list_scope.

(** ** Storage lemmas *)

Lemma storage_get_set_other (s : CacheStorage) (n m : string) (c : Cache) :
  m <> n -> storage_get (storage_set s n c) m = storage_get s m.
Proof.
  intros Hmn. induction s as [|[k d] s IH]; simpl; [reflexivity|].
  destruct (String.eqb_spec k n) as [->|Hkn]; simpl.
  - destruct (String.eqb_spec n m); [congruence | reflexivity].
  - destruct (String.eqb k m); [reflexivity | exact IH].
Qed.

Lemma storage_get_app_other (s : CacheStorage) (n m : string) (c : Cache) :
  m <> n -> storage_get (s ++ [(n, c)]) m = storage_get s m.
Proof.
  intros Hmn. induction s as [|[k d] s IH]; simpl.
  - destruct (String.eqb_spec n m); [congruence | reflexivity].
  - destruct (String.eqb k m); [reflexivity | exact IH].
Qed.

Lemma storage_set_names (s : CacheStorage) (n : string) (c : Cache) :
  map fst (storage_set s n c) = map fst s.
Proof.
  induction s as [|[k d] s IH]; simpl; [reflexivity|].
  destruct (String.eqb k n); simpl; [reflexivity | rewrite IH; reflexivity].
Qed.

Lemma storage_set_set (s : CacheStorage) (n : string) (c c' : Cache) :
  storage_set (storage_set s n c) n c' = storage_set s n c'.
Proof.
  induction s as [|[k d] s IH]; simpl; [reflexivity|].
  destruct (String.eqb k n) eqn:Hk; simpl; rewrite Hk; [reflexivity | rewrite IH; reflexivity].
Qed.

Lemma storage_set_in (s : CacheStorage) (n m : string) (c d : Cache) :
  In (m, d) (storage_set s n c) -> In (m, d) s \/ d = c.
Proof.
  induction s as [|[k d0] s IH]; simpl; [tauto|].
  destruct (String.eqb k n); simpl.
  - intros [H|H]; [inversion H; subst; right; reflexivity | left; right; exact H].
  - intros [H|H]; [left; left; exact H|]. destruct (IH H); [left; right|right]; assumption.
Qed.

Lemma caches_open_in (s : CacheStorage) (n m : string) (d : Cache) :
  In (m, d) (fst (caches_open s n)) -> In (m, d) s \/ d = [].
Proof.
  unfold caches_open. destruct (storage_get s n); simpl; [tauto|].
  rewrite in_app_iff. simpl. intros [H|[H|[]]]; [left; exact H | inversion H; right; reflexivity].
Qed.

(** The storage after the install handler: the opened storage, with the
    Named Cache Store replaced by the batch put when [addAll] succeeds. *)
Lemma install_handler_storage (net : Network) (s : CacheStorage) :
  fst (fst (install_handler net s)) =
  match fetch_responses net assets with
  | Ok l => storage_set (fst (caches_open s cacheName)) cacheName
              (put_all (snd (caches_open s cacheName)) l)
  | Err _ => fst (caches_open s cacheName)
  end.
Proof.
  unfold install_handler, cache_addAll.
  destruct (caches_open s cacheName) as [s1 c].
  destruct (fetch_responses net assets); reflexivity.
Qed.

Lemma install_handler_result (net : Network) (s : CacheStorage) :
  snd (install_handler net s) =
  match fetch_responses net assets with Ok _ => Ok tt | Err e => Err e end.
Proof.
  unfold install_handler, cache_addAll.
  destruct (caches_open s cacheName) as [s1 c].
  destruct (fetch_responses net assets); reflexivity.
Qed.

(** ** Batch put lemmas *)

Lemma existsb_eqb_In (x : string) (l : list string) :
  existsb (String.eqb x) l = true <-> In x l.
Proof.
  rewrite existsb_exists. split.
  - intros [y [Hy Heq]]. apply String.eqb_eq in Heq. subst. exact Hy.
  - intros H. exists x. split; [exact H | apply String.eqb_refl].
Qed.

Lemma filter_compose {A : Type} (f g : A -> bool) (l : list A) :
  filter f (filter g l) = filter (fun x => g x && f x) l.
Proof.
  induction l as [|x l IH]; simpl; [reflexivity|].
  destruct (g x); simpl; [destruct (f x); simpl; rewrite IH; reflexivity | exact IH].
Qed.

Lemma filter_all_true {A : Type} (l : list A) : filter (fun _ => true) l = l.
Proof. induction l as [|x l IH]; simpl; [reflexivity | rewrite IH; reflexivity]. Qed.

Lemma filter_none {A : Type} (f : A -> bool) (l : list A) :
  (forall x, In x l -> f x = false) -> filter f l = [].
Proof.
  induction l as [|x l IH]; intros H; simpl; [reflexivity|].
  rewrite (H x (or_introl eq_refl)). apply IH. intros y Hy. apply H. right. exact Hy.
Qed.

(** With distinct keys, a batch put drops the old entries of those keys
    and appends the new ones in order. *)
Lemma put_all_eq (c : Cache) (l : list (Request * Response)) :
  NoDup (map fst l) ->
  put_all c l = filter (fun e => negb (existsb (String.eqb (fst e)) (map fst l))) c ++ l.
Proof.
  unfold put_all. revert c.
  induction l as [|[r v] l IH]; intros c Hnd; cbn [fold_left fst snd map].
  - cbn [existsb negb]. rewrite filter_all_true, app_nil_r. reflexivity.
  - inversion Hnd as [|? ? Hr Hl]; subst.
    rewrite (IH _ Hl). unfold cache_put. rewrite filter_app.
    assert (Hrl : existsb (String.eqb r) (map fst l) = false).
    { destruct (existsb (String.eqb r) (map fst l)) eqn:E; [|reflexivity].
      apply existsb_eqb_In in E. contradiction. }
    cbn [filter fst]. rewrite Hrl. cbn [negb].
    rewrite filter_compose, <- app_assoc. f_equal.
    apply filter_ext. intros [k w]. cbn [fst existsb].
    rewrite negb_orb. reflexivity.
Qed.

Lemma put_all_idem (c : Cache) (l : list (Request * Response)) :
  NoDup (map fst l) -> put_all (put_all c l) l = put_all c l.
Proof.
  intros Hnd. rewrite (put_all_eq (put_all c l)) by exact Hnd.
  rewrite (put_all_eq c) by exact Hnd.
  rewrite filter_app, filter_compose.
  assert (Hl : filter (fun e => negb (existsb (String.eqb (fst e)) (map fst l))) l = []).
  { apply filter_none.
    intros e He. destruct (existsb (String.eqb (fst e)) (map fst l)) eqn:E; [reflexivity|].
    exfalso. assert (Hin : In (fst e) (map fst l)) by (apply in_map; exact He).
    apply existsb_eqb_In in Hin. congruence. }
  rewrite Hl, app_nil_r. f_equal. apply filter_ext. intros e. apply andb_diag.
Qed.

Lemma put_all_entries (c : Cache) (l : list (Request * Response)) (e : Request * Response) :
  In e (put_all c l) -> In e c \/ In e l.
Proof.
  unfold put_all. revert c.
  induction l as [|[r v] l IH]; intros c Hin; simpl in *; [auto|].
  destruct (IH _ Hin) as [Hc|Hl]; [|auto].
  unfold cache_put in Hc. rewrite in_app_iff in Hc. simpl in Hc.
  destruct Hc as [Hc|[<-|[]]]; [|auto].
  left. apply filter_In in Hc. tauto.
Qed.

Lemma cache_lookup_in (c : Cache) (r : Request) (v : Response) :
  cache_lookup c r = Some v -> In (r, v) c.
Proof.
  induction c as [|[k w] c IH]; simpl; [discriminate|].
  destruct (String.eqb_spec k r) as [->|_]; intros H.
  - inversion H; subst. left. reflexivity.
  - right. exact (IH H).
Qed.

Lemma fetch_responses_status (net : Network) (rs : list Request) (l : list (Request * Response)) :
  fetch_responses net rs = Ok l ->
  forall e, In e l -> ok_status (status (snd e)) = true /\ status (snd e) <> 206.
Proof.
  revert l. induction rs as [|r rs IH]; intros l H; simpl in H.
  - inversion H; subst. intros e [].
  - unfold fetch in H. destruct (net r) as [v|]; [|discriminate].
    destruct (ok_status (status v)) eqn:Hok; [|discriminate].
    destruct (status v =? 206) eqn:H206; [discriminate|]. cbn [andb negb] in H.
    destruct (fetch_responses net rs) as [l'|] eqn:Hrs; [|discriminate].
    inversion H; subst. intros e [<-|Hin]; [|exact (IH l' eq_refl e Hin)].
    split; [exact Hok|]. apply Z.eqb_neq. exact H206.
Qed.


(** ** Invariant over the stored entries *)

Section Entries.

(** A property of entries that every response list [addAll] collects for
    the manifest has. *)
Variable Q : Request * Response -> Prop.
Hypothesis Q_fetched :
  forall net l, fetch_responses net assets = Ok l -> forall e, In e l -> Q e.

Lemma step_entries (s : CacheStorage) (ev : Event) :
  (forall n c e, In (n, c) s -> In e c -> Q e) ->
  (forall n c e, In (n, c) (step s ev) -> In e c -> Q e).
Proof.
  intros Hinv. destruct ev as [net|net req].
  - assert (Ho : forall n c e, In (n, c) (fst (caches_open s cacheName)) -> In e c -> Q e).
    { intros n c e Hin He. destruct (caches_open_in _ _ _ _ Hin) as [H | ->].
      - exact (Hinv n c e H He).
      - destruct He. }
    assert (Hst : step s (InstallEv net) = fst (fst (install_handler net s))).
    { simpl. destruct (install_handler net s) as [[s' tr] r]. reflexivity. }
    rewrite Hst, install_handler_storage.
    destruct (fetch_responses net assets) as [l|err] eqn:Hf; [|exact Ho].
    intros n c e Hin He. destruct (storage_set_in _ _ _ _ _ Hin) as [H | ->].
    + exact (Ho n c e H He).
    + destruct (put_all_entries _ _ _ He) as [He'|He'].
      * apply (Ho cacheName (snd (caches_open s cacheName)) e); [|exact He'].
        pose proof (caches_open_get s cacheName) as Hg.
        apply ServiceWorkerFacts.storage_get_in. exact Hg.
      * exact (Q_fetched net l Hf e He').
  - simpl. unfold handle_fetch. destruct (caches_match s req); exact Hinv.
Qed.

Lemma run_entries (evs : list Event) (s : CacheStorage) :
  (forall n c e, In (n, c) s -> In e c -> Q e) ->
  (forall n c e, In (n, c) (run s evs) -> In e c -> Q e).
Proof.
  unfold run. revert s. induction evs as [|ev evs IH]; intros s Hinv; simpl; [exact Hinv|].
  apply IH. apply step_entries. exact Hinv.
Qed.

End Entries.

(** From an empty storage, no store ever holds a request outside the
    manifest, so such a request goes to the network. *)
Lemma outside_manifest_miss (evs : list Event) (net : Network) (req : Request) :
  ~ In req assets ->
  handle_fetch net (run [] evs) req = (run [] evs, [req], fetch net req).
Proof.
  intros Hreq. apply handle_fetch_miss. intros n c Hin.
  destruct (cache_lookup c req) as [v|] eqn:Hv; [|reflexivity].
  exfalso. apply Hreq.
  apply (run_entries (fun e => In (fst e) assets)) with (evs := evs) (s := []) (n := n) (c := c)
    (e := (req, v)).
  - intros net' l Hf e He. destruct (fetch_responses_ok _ _ _ Hf) as [Hm _].
    rewrite <- Hm. apply in_map. exact He.
  - intros n' c' e' [].
  - exact Hin.
  - apply cache_lookup_in. exact Hv.
Qed.

Lemma fold_append (files l : list string) :
  fold_left (fun l file => (l ++ [file])%list) files l = l ++ files.
Proof.
  revert l. induction files as [|f files IH]; intros l; simpl.
  - rewrite app_nil_r. reflexivity.
  - rewrite IH, <- app_assoc. reflexivity.
Qed.

(** ** Extra properties *)




(** X3: install leaves every other store as it was, and keeps the stores
    in their order, appending the Named Cache Store when it is new. *)
Theorem install_keeps_other_stores (net : Network) (s : CacheStorage) :
  (forall n, n <> cacheName -> storage_get (fst (fst (install_handler net s))) n = storage_get s n) /\
  map fst (fst (fst (install_handler net s))) =
    match storage_get s cacheName with
    | Some _ => map fst s
    | None => map fst s ++ [cacheName]
    end.
Proof.
  rewrite install_handler_storage.
  assert (Ho : forall n, n <> cacheName -> storage_get (fst (caches_open s cacheName)) n = storage_get s n).
  { intros n Hn. unfold caches_open. destruct (storage_get s cacheName); [reflexivity|].
    apply storage_get_app_other. exact Hn. }
  assert (Hm : map fst (fst (caches_open s cacheName)) =
    match storage_get s cacheName with Some _ => map fst s | None => map fst s ++ [cacheName] end).
  { unfold caches_open. destruct (storage_get s cacheName); [reflexivity|].
    simpl. rewrite map_app. reflexivity. }
  destruct (fetch_responses net assets); split.
  - intros n Hn. rewrite storage_get_set_other by exact Hn. exact (Ho n Hn).
  - rewrite storage_set_names. exact Hm.
  - exact Ho.
  - exact Hm.
Qed.

(** X4: from any storage, installing a second time with the network
    answering as before leaves the storage as the first install left it. *)
Theorem install_idempotent (net : Network) (s : CacheStorage) :
  fst (fst (install_handler net (fst (fst (install_handler net s))))) =
  fst (fst (install_handler net s)).
Proof.
  pose proof (caches_open_get s cacheName) as Hg.
  destruct (caches_open s cacheName) as [s0 c0] eqn:Ho. cbn [fst snd] in Hg.
  rewrite (install_handler_storage net s), Ho. cbn [fst snd].
  destruct (fetch_responses net assets) as [l|e] eqn:Hf.
  - rewrite install_handler_storage, Hf.
    assert (Hg' : storage_get (storage_set s0 cacheName (put_all c0 l)) cacheName = Some (put_all c0 l))
      by (eapply storage_get_set_same; exact Hg).
    unfold caches_open at 1 2. rewrite Hg'. cbn [fst snd].
    rewrite storage_set_set. f_equal. apply put_all_idem.
    destruct (fetch_responses_ok _ _ _ Hf) as [Hm _]. rewrite Hm.
    repeat constructor; simpl; intuition discriminate.
  - rewrite install_handler_storage, Hf. unfold caches_open. rewrite Hg. reflexivity.
Qed.

(** X5: from an empty storage, whatever events come, every stored
    response has an ok status other than 206. *)
Theorem stored_responses_ok (evs : list Event) (n : string) (c : Cache) (r : Request) (v : Response) :
  In (n, c) (run [] evs) -> In (r, v) c -> ok_status (status v) = true /\ status v <> 206.
Proof.
  intros Hin Hrv.
  apply (run_entries (fun e => ok_status (status (snd e)) = true /\ status (snd e) <> 206))
    with (evs := evs) (s := []) (n := n) (c := c) (e := (r, v)).
  - intros net l Hf. exact (fetch_responses_status net assets l Hf).
  - intros n' c' e' [].
  - exact Hin.
  - exact Hrv.
Qed.

Lemma stored_responses_ok_witness :
  ok_status 200 = true /\ 200 <> 206.
Proof.
  apply (stored_responses_ok [InstallEv (fun _ => Some (mkResponse 200 "asset"))]
    cacheName (put_all [] [("/", mkResponse 200 "asset");
      ("/static/app.js", mkResponse 200 "asset");
      ("/static/manifest.json", mkResponse 200 "asset")]) "/" (mkResponse 200 "asset")).
  - left. reflexivity.
  - vm_compute. left. reflexivity.
Defined.

(** X6: from an empty storage, whatever events come, a request for a path
    outside the manifest is never answered from a store: it costs one
    network fetch and gets that fetch's result. *)
Theorem outside_manifest_goes_to_network (evs : list Event) (net : Network) (req : Request) :
  ~ In req assets ->
  handle_fetch net (run [] evs) req = (run [] evs, [req], fetch net req).
Proof. exact (outside_manifest_miss evs net req). Qed.

Lemma outside_manifest_goes_to_network_witness :
  let evs := [InstallEv (fun _ => Some (mkResponse 200 "")); FetchEv (fun _ => None) "/files"] in
  handle_fetch (fun _ => None) (run [] evs) "/files" = (run [] evs, ["/files"], Err NetworkError).
Proof.
  intros evs. apply (outside_manifest_goes_to_network evs (fun _ => None) "/files").
  simpl. intuition discriminate.
Defined.

(** X7: after a successful install on an empty storage, every manifest
    asset is served from the store, with no network fetch whatever the
    network does then, and with the response fetched at install. *)
Theorem install_then_serve_offline (net net' : Network) (s' : CacheStorage) (tr : trace) (a : Request) :
  install_handler net [] = (s', tr, Ok tt) -> In a assets ->
  exists v, net a = Some v /\ handle_fetch net' s' a = (s', [], Ok v).
Proof.
  intros Hi Ha. pose proof (install_handler_storage net []) as Hs.
  pose proof (install_handler_result net []) as Hr. rewrite Hi in Hs, Hr. cbn [fst snd] in Hs, Hr.
  destruct (fetch_responses net assets) as [l|e] eqn:Hf; [|discriminate].
  destruct (fetch_responses_ok _ _ _ Hf) as [Hm Hn].
  cbn in Hs. subst s'.
  rewrite <- Hm in Ha. pose proof (put_all_lookup net l [] a Hn Ha) as Hl.
  destruct (net a) as [v|] eqn:Hv.
  - exists v. split; [reflexivity|]. unfold handle_fetch. simpl. rewrite Hl. reflexivity.
  - exfalso. apply in_map_iff in Ha. destruct Ha as [[r w] [Hrw Hin]]. simpl in Hrw; subst r.
    rewrite (Hn a w Hin) in Hv. discriminate.
Qed.

Lemma install_then_serve_offline_witness :
  exists v, Some (mkResponse 200 "app") = Some v /\
    handle_fetch (fun _ => None)
      [(cacheName, put_all [] [("/", mkResponse 200 "app");
        ("/static/app.js", mkResponse 200 "app");
        ("/static/manifest.json", mkResponse 200 "app")])] "/static/app.js"
    = ([(cacheName, put_all [] [("/", mkResponse 200 "app");
        ("/static/app.js", mkResponse 200 "app");
        ("/static/manifest.json", mkResponse 200 "app")])], [], Ok v).
Proof.
  apply (install_then_serve_offline (fun _ => Some (mkResponse 200 "app")) (fun _ => None)
    [(cacheName, put_all [] [("/", mkResponse 200 "app");
        ("/static/app.js", mkResponse 200 "app");
        ("/static/manifest.json", mkResponse 200 "app")])] assets "/static/app.js").
  - reflexivity.
  - right. left. reflexivity.
Defined.



(** X9: on a page controlled by the worker, after any events from an
    empty storage, loading the page appends to the list exactly the file
    names of the live [/files] response, in order; nothing when the
    network fails or the body is not a JSON array. *)
Theorem file_list_is_live (parse_files : string -> option (list string))
    (evs : list Event) (net : Network) (ul : list string) :
  FileListPage.load_file_list parse_files net (run [] evs) ul =
  match net "/files" with
  | Some res => match parse_files (body res) with Some files => ul ++ files | None => ul end
  | None => ul
  end.
Proof.
  unfold FileListPage.load_file_list.
  rewrite outside_manifest_miss by (simpl; intuition discriminate).
  unfold fetch. destruct (net "/files") as [res|]; [|reflexivity].
  destruct (parse_files (body res)); [apply fold_append | reflexivity].
Qed.

End ServiceWorkerExtra.

(** * Further properties of the Java exercise *)

Module MaxOfThreeExtra.
Import MaxOfThree.

Lemma largest_fold_max (numbers : list Z) (acc : Z) :
  fold_left (fun compare num => if num >? compare then num else compare) numbers acc =
  fold_left Z.max numbers acc.
Proof.
  revert acc. induction numbers as [|n ns IH]; intros acc; simpl; [reflexivity|].
  rewrite IH. f_equal.
  destruct (n >? acc) eqn:H; rewrite ?Z.gtb_ltb, ?Z.ltb_lt, ?Z.ltb_ge in H; lia.
Qed.

Lemma parse_all_length (ps : list string) (ns : list Z) :
  parse_all ps = Some ns -> List.length ns = List.length ps.
Proof.
  revert ns. induction ps as [|p ps IH]; intros ns H; simpl in H.
  - inversion H; reflexivity.
  - destruct (parseInt p), (parse_all ps) as [ns'|] eqn:E; try discriminate.
    inversion H; subst. simpl. f_equal. apply IH. reflexivity.
Qed.

Lemma parse_all_none (ps : list string) (p : string) :
  In p ps -> parseInt p = None -> parse_all ps = None.
Proof.
  intros Hin Hp. induction ps as [|q ps IH]; [contradiction|]. simpl.
  destruct Hin as [->|Hin].
  - rewrite Hp. reflexivity.
  - rewrite (IH Hin). destruct (parseInt q); reflexivity.
Qed.

(** X10: the reported number is the largest of [0] and all the numbers
    read, including those after the third, which the message does not
    name. *)
Theorem main_out_reports_max_with_zero (line : string) (a b c m : Z) :
  main_out line = Some (a, b, c, m) ->
  exists rest, parse_all (split_comma line) = Some (a :: b :: c :: rest) /\
    m = fold_left Z.max (a :: b :: c :: rest) 0.
Proof.
  unfold main_out. destruct (parse_all (split_comma line)) as [ns|]; [|discriminate].
  destruct ns as [|n0 [|n1 [|n2 rest]]]; try discriminate.
  intros H. inversion H; subst. exists rest. split; [reflexivity|].
  unfold largest. apply largest_fold_max.
Qed.

Lemma main_out_reports_max_with_zero_witness :
  exists rest, parse_all (split_comma "1,2,3,9") = Some (1 :: 2 :: 3 :: rest) /\
    9 = fold_left Z.max (1 :: 2 :: 3 :: rest) 0.
Proof.
  apply (main_out_reports_max_with_zero "1,2,3,9" 1 2 3 9). reflexivity.
Defined.

(** X11: a line with fewer than three comma-separated pieces makes the
    program throw before printing a result. *)
Theorem main_out_too_few (line : string) :
  (List.length (split_comma line) < 3)%nat -> main_out line = None.
Proof.
  intros Hlen. unfold main_out.
  destruct (parse_all (split_comma line)) as [ns|] eqn:E; [|reflexivity].
  apply parse_all_length in E.
  destruct ns as [|n0 [|n1 [|n2 rest]]]; try reflexivity.
  simpl in E. lia.
Qed.

Lemma main_out_too_few_witness : main_out "5,2" = None.
Proof. apply main_out_too_few. simpl. lia. Defined.

(** X12: a piece that is not a decimal [int] (for instance one with a
    space after the comma, as in ["5, 2, 23"]) makes the program throw. *)
Theorem main_out_bad_piece (line p : string) :
  In p (split_comma line) -> parseInt p = None -> main_out line = None.
Proof.
  intros Hin Hp. unfold main_out. rewrite (parse_all_none _ p Hin Hp). reflexivity.
Qed.

Lemma main_out_bad_piece_witness : main_out "5, 2, 23" = None.
Proof.
  apply (main_out_bad_piece "5, 2, 23" " 2").
  - simpl. right. left. reflexivity.
  - reflexivity.
Defined.



End MaxOfThreeExtra.
